(** * stampy_chat.db.session: the session factory and the batch writer

    A shallow embedding of [api/src/stampy_chat/db/session.py]: the scoped
    session factory [make_session] and the class [ItemAdder], which adds
    items to a SQLAlchemy session and commits it by count or by age.

    The collaborators of the module (SQLAlchemy's [Session], [create_engine],
    [time.time] and the [logging] sink) are modelled by a [World]: a heap of
    session objects, the rows made durable, the answers the clock and the
    database will give, and the trace of what was called on the sessions. *)

From stdpp Require Import base numbers list strings.

Local Open Scope string_scope.
Local Open Scope Z_scope.
Local Open Scope list_scope.

(** ** Values of the collaborators *)

(** An engine is an opaque handle; [create_engine] hands out a new one. *)
Definition Engine := nat.

(** An object handed to [Session.add_all]: an instance of a mapped class, or
    something else, which [Session.add] refuses. Items are distinct objects,
    told apart by their key. *)
Inductive Item :=
| Mapped (key : nat)
| Unmapped (key : nat).

(** The exceptions that can travel through the module. [PendingRollbackError]
    and [UnmappedInstanceError] are subclasses of [SQLAlchemyError] in
    SQLAlchemy; [OtherError] stands for any exception outside that hierarchy. *)
Inductive Exn :=
| SQLAlchemyError (detail : nat)
| PendingRollbackError
| UnmappedInstanceError (it : Item)
| ZeroDivisionError
| AttributeError
| SystemError
| OtherError (tag : nat).

(** [isinstance(e, SQLAlchemyError)], the test of the [except] clause. *)
Definition isinstance_SQLAlchemyError (e : Exn) : bool :=
  match e with
  | SQLAlchemyError _ | PendingRollbackError | UnmappedInstanceError _ => true
  | ZeroDivisionError | AttributeError | SystemError | OtherError _ => false
  end.

(** A session object: the engine it is bound to, its [autoflush] flag, the
    objects added and not yet committed, and whether a failed flush left its
    transaction waiting for a rollback. *)
Record SessionObj := mkSessionObj {
  bind : Engine;
  autoflush : bool;
  pending : list Item;
  inactive : bool
}.

(** What was called on the sessions, oldest first. A reference to a session
    is its index in the heap. [CallCommit] records what was pending. *)
Inductive Call :=
| CallSession (r : nat) (e : Engine)
| CallAddAll (r : nat) (items : list Item)
| CallCommit (r : nat) (flushed : list Item)
| CallRollback (r : nat)
| CallClose (r : nat).

Inductive Level := DEBUG | INFO | WARNING.

Inductive LogArg :=
| NoArg
| ExnArg (e : Exn)
| LenArg (n : nat).

Record LogRecord := mkLogRecord {
  level : Level;
  msg : string;
  arg : LogArg
}.

(** Time is counted in whole units of the clock's resolution; [save_every] is
    in the same unit. The k-th call of [time.time] answers [clock k], and the
    k-th commit that reaches the database raises [db_outcome k] if that is an
    exception. *)
Record World := mkWorld {
  clock : nat -> Z;
  ticks : nat;
  db_outcome : nat -> option Exn;
  commit_no : nat;
  engines : nat;
  heap : list SessionObj;
  stored : list Item;
  calls : list Call;
  log : list LogRecord
}.

Definition set_ticks (n : nat) (w : World) : World :=
  mkWorld (clock w) n (db_outcome w) (commit_no w) (engines w) (heap w)
          (stored w) (calls w) (log w).

Definition set_commit_no (n : nat) (w : World) : World :=
  mkWorld (clock w) (ticks w) (db_outcome w) n (engines w) (heap w)
          (stored w) (calls w) (log w).

Definition set_engines (n : nat) (w : World) : World :=
  mkWorld (clock w) (ticks w) (db_outcome w) (commit_no w) n (heap w)
          (stored w) (calls w) (log w).

Definition set_heap (h : list SessionObj) (w : World) : World :=
  mkWorld (clock w) (ticks w) (db_outcome w) (commit_no w) (engines w) h
          (stored w) (calls w) (log w).

Definition set_stored (l : list Item) (w : World) : World :=
  mkWorld (clock w) (ticks w) (db_outcome w) (commit_no w) (engines w) (heap w)
          l (calls w) (log w).

Definition record_call (c : Call) (w : World) : World :=
  mkWorld (clock w) (ticks w) (db_outcome w) (commit_no w) (engines w) (heap w)
          (stored w) (calls w ++ [c]) (log w).

Definition record_log (r : LogRecord) (w : World) : World :=
  mkWorld (clock w) (ticks w) (db_outcome w) (commit_no w) (engines w) (heap w)
          (stored w) (calls w) (log w ++ [r]).

(** ** Python computations: state and exceptions *)

Inductive Outcome (A : Type) :=
| Returns (a : A)
| Raises (e : Exn).

Arguments Returns {A} a.
Arguments Raises {A} e.

(** A computation over a state [S]; the state survives an exception. *)
Definition Py (S A : Type) : Type := S -> Outcome A * S.

Definition ret {S A} (a : A) : Py S A := fun s => (Returns a, s).

Definition raise {S A} (e : Exn) : Py S A := fun s => (Raises e, s).

Definition and_then {S A B} (c : Py S A) (k : A -> Py S B) : Py S B :=
  fun s =>
    match c s with
    | (Returns a, s') => k a s'
    | (Raises e, s') => (Raises e, s')
    end.

Notation "'let*' x ':=' c 'in' k" := (and_then c (fun x => k))
  (at level 10, x binder, c at level 100, k at level 200).

(** [try: c except E as e: h e], where [handler e = None] when [e] is not an
    instance of [E]. *)
Definition try_except {S A} (c : Py S A) (handler : Exn -> option (Py S A))
  : Py S A :=
  fun s =>
    match c s with
    | (Returns a, s') => (Returns a, s')
    | (Raises e, s') =>
        match handler e with
        | Some h => h s'
        | None => (Raises e, s')
        end
    end.

(** [try: c finally: f]; an exception of [f] replaces the outcome of [c]. *)
Definition try_finally {S A} (c : Py S A) (f : Py S unit) : Py S A :=
  fun s =>
    match c s with
    | (o, s') =>
        match f s' with
        | (Returns _, s'') => (o, s'')
        | (Raises e, s'') => (Raises e, s'')
        end
    end.

(** [a % b] on Python integers: the sign of the divisor, as [Z.modulo]. *)
Definition py_mod {S} (a b : Z) : Py S Z :=
  if b =? 0 then raise ZeroDivisionError else ret (a mod b).

(** ** The collaborators *)

(** [time.time()] *)
Definition time_time : Py World Z :=
  fun w => (Returns (clock w (ticks w)), set_ticks (S (ticks w)) w).

(** [create_engine(DB_CONNECTION_URI, echo=False)] *)
Definition create_engine : Py World Engine :=
  fun w => (Returns (engines w), set_engines (S (engines w)) w).

(** [logger.debug], [logger.info], [logger.warn] *)
Definition logger (lvl : Level) (m : string) (a : LogArg) : Py World unit :=
  fun w => (Returns tt, record_log (mkLogRecord lvl m a) w).

(** [Session(e, autoflush=af)] *)
Definition Session (e : Engine) (af : bool) : Py World nat :=
  fun w =>
    let r := length (heap w) in
    (Returns r,
     record_call (CallSession r e)
       (set_heap (heap w ++ [mkSessionObj e af [] false]) w)).

(** [Session.add_all] adds the instances one by one and stops at the first
    one [Session.add] refuses; those before it stay added. *)
Fixpoint add_each (items pend : list Item) : Outcome unit * list Item :=
  match items with
  | [] => (Returns tt, pend)
  | Mapped k :: rest => add_each rest (pend ++ [Mapped k])
  | Unmapped k :: _ => (Raises (UnmappedInstanceError (Unmapped k)), pend)
  end.

(** A reference outside the heap cannot arise in Python; the operations answer
    [SystemError] there. *)
Definition Session_add_all (r : nat) (items : list Item) : Py World unit :=
  fun w =>
    match heap w !! r with
    | None => (Raises SystemError, w)
    | Some s =>
        match add_each items (pending s) with
        | (o, pend) =>
            (o, record_call (CallAddAll r items)
                  (set_heap (<[r := mkSessionObj (bind s) (autoflush s) pend
                                                 (inactive s)]> (heap w)) w))
        end
    end.

(** [Session.commit]: refused while a rollback is awaited; otherwise the
    database decides, and on success what was pending is durable. *)
Definition Session_commit (r : nat) : Py World unit :=
  fun w =>
    match heap w !! r with
    | None => (Raises SystemError, w)
    | Some s =>
        let w1 := record_call (CallCommit r (pending s)) w in
        if inactive s then (Raises PendingRollbackError, w1)
        else
          let w2 := set_commit_no (S (commit_no w)) w1 in
          match db_outcome w (commit_no w) with
          | Some e =>
              (Raises e,
               set_heap (<[r := mkSessionObj (bind s) (autoflush s) (pending s)
                                             true]> (heap w)) w2)
          | None =>
              (Returns tt,
               set_stored (stored w ++ pending s)
                 (set_heap (<[r := mkSessionObj (bind s) (autoflush s) []
                                                false]> (heap w)) w2))
          end
    end.

(** [Session.rollback]: what was pending is expunged. *)
Definition Session_rollback (r : nat) : Py World unit :=
  fun w =>
    match heap w !! r with
    | None => (Raises SystemError, w)
    | Some s =>
        (Returns tt,
         record_call (CallRollback r)
           (set_heap (<[r := mkSessionObj (bind s) (autoflush s) [] false]>
                        (heap w)) w))
    end.

(** [Session.close], also what leaving [with Session(...)] calls. *)
Definition Session_close (r : nat) : Py World unit :=
  fun w =>
    match heap w !! r with
    | None => (Raises SystemError, w)
    | Some s =>
        (Returns tt,
         record_call (CallClose r)
           (set_heap (<[r := mkSessionObj (bind s) (autoflush s) [] false]>
                        (heap w)) w))
    end.

(** ** The module *)

(** [engine = create_engine(DB_CONNECTION_URI, echo=False)], made once when
    the module is loaded. *)
Definition engine : Engine := 0%nat.

(** [with make_session(auto_commit) as session: body session]. The generator
    is suspended at its [yield] inside [with Session(...)]: an exception of
    the body is thrown in there, skips the commit and leaves through the
    session's exit, which closes it. *)
Definition make_session {A} (auto_commit : bool) (body : nat -> Py World A)
  : Py World A :=
  let* session := Session engine false in
  try_finally
    (let* b := body session in
     let* _ := (if auto_commit then Session_commit session else ret tt) in
     ret b)
    (Session_close session).

Module ItemAdder.

Record t := mk {
  engine : Engine;
  batch_size : Z;
  save_every : Z;
  session : option nat;
  _counter : Z;
  _last_save : Z
}.

Definition set_session (o : option nat) (self : t) : t :=
  mk (engine self) (batch_size self) (save_every self) o (_counter self)
     (_last_save self).

Definition set_counter (c : Z) (self : t) : t :=
  mk (engine self) (batch_size self) (save_every self) (session self) c
     (_last_save self).

Definition set_last_save (n : Z) (self : t) : t :=
  mk (engine self) (batch_size self) (save_every self) (session self)
     (_counter self) n.

(** A method runs on the object and the world. *)
Definition St : Type := t * World.

Definition world {A} (c : Py World A) : Py St A :=
  fun s => match c (snd s) with (o, w) => (o, (fst s, w)) end.

Definition get_self : Py St t := fun s => (Returns (fst s), s).

Definition update (f : t -> t) : Py St unit :=
  fun s => (Returns tt, (f (fst s), snd s)).

(** [ItemAdder(engine, batch_size, save_every)] *)
Definition __init__ (eng : option Engine) (batch_size save_every : Z)
  : Py World t :=
  let* e := match eng with
            | Some e => ret e
            | None => create_engine
            end in
  let* s := Session e true in
  let* now := time_time in
  ret (mk e batch_size save_every (Some s) 0 now).

(** [self.session.m()]: on [None] the attribute lookup fails. *)
Definition on_session (m : nat -> Py World unit) : Py St unit :=
  let* self := get_self in
  match session self with
  | Some r => world (m r)
  | None => raise AttributeError
  end.

Definition commit : Py St unit :=
  let* _ :=
    try_except (on_session Session_commit)
      (fun e =>
         if isinstance_SQLAlchemyError e then
           Some (let* _ := world (logger WARNING
                    "Got error when trying to commit to database: %s"
                    (ExnArg e)) in
                 let* _ := on_session Session_rollback in
                 raise e)
         else None) in
  let* now := world time_time in
  update (set_last_save now).

(** The generator of [get_session] up to its [yield]; [not self.session]
    holds of [None] only, a session object being truthy. *)
Definition get_session_enter : Py St nat :=
  let* self := get_self in
  match session self with
  | None =>
      let* _ := world (logger INFO "No session - creating new one" NoArg) in
      let* r := world (Session (engine self) true) in
      let* _ := update (set_session (Some r)) in
      ret r
  | Some r => ret r
  end.

(** [(self._counter % self.batch_size) == 0 or
     time.time() - self._last_save > self.save_every]; the clock is read
    only when the first test fails. *)
Definition commit_due : Py St bool :=
  let* self := get_self in
  let* m := py_mod (_counter self) (batch_size self) in
  if m =? 0 then ret true
  else
    let* now := world time_time in
    ret (now - _last_save self >? save_every self).

(** The generator of [get_session] after its [yield]. *)
Definition get_session_exit : Py St unit :=
  let* due := commit_due in
  if due then
    let* _ := world (logger INFO "Commiting batch to database" NoArg) in
    commit
  else ret tt.

(** [with self.get_session() as session: body session]. Nothing guards the
    [yield]: an exception of the body skips what follows it. *)
Definition get_session {A} (body : nat -> Py St A) : Py St A :=
  let* session := get_session_enter in
  let* b := body session in
  let* _ := get_session_exit in
  ret b.

Definition add (items : list Item) : Py St unit :=
  let* _ :=
    get_session (fun session =>
      let* _ := world (Session_add_all session items) in
      let* self := get_self in
      update (set_counter (_counter self + Z.of_nat (length items)))) in
  world (logger DEBUG "added %s items" (LenArg (length items))).

Definition __del__ : Py St unit :=
  let* _ := world (logger DEBUG "cleaning up session" NoArg) in
  let* self := get_self in
  match session self with
  | Some _ =>
      let* _ := commit in
      on_session Session_close
  | None => ret tt
  end.

End ItemAdder.

(** ** Vocabulary of the statements *)

Section Adder.

Import ItemAdder.

(** [Session.add] accepts the item. *)
Definition is_mapped (it : Item) : bool :=
  match it with
  | Mapped _ => true
  | Unmapped _ => false
  end.

(** How many times [Session.commit] was called in a trace. *)
Fixpoint commit_calls (t : list Call) : nat :=
  match t with
  | [] => 0%nat
  | CallCommit _ _ :: t' => S (commit_calls t')
  | _ :: t' => commit_calls t'
  end.

(** How many sessions were made in a trace. *)
Fixpoint session_calls (t : list Call) : nat :=
  match t with
  | [] => 0%nat
  | CallSession _ _ :: t' => S (session_calls t')
  | _ :: t' => session_calls t'
  end.

(** What was called on the sessions between two worlds of one run. *)
Definition since (w w' : World) : list Call :=
  drop (length (calls w)) (calls w').

(** The session of the adder, if it has one, is an object of the heap. *)
Definition valid_session (st : St) : bool :=
  match session (fst st) with
  | Some r => bool_decide (r < length (heap (snd st)))%nat
  | None => true
  end.

(** The two conditions of the commit policy, on the adder as it stands when
    the policy is evaluated and the clock's answer at that moment. *)
Definition size_due (self : t) : Prop :=
  _counter self mod batch_size self = 0.

Definition age_due (self : t) (now : Z) : Prop :=
  now - _last_save self > save_every self.

#[local] Instance size_due_dec self : Decision (size_due self) :=
  Z.eq_dec _ _.

#[local] Instance age_due_dec self now : Decision (age_due self now) :=
  Z_gt_dec _ _.

Definition warned (e : Exn) : LogRecord :=
  mkLogRecord WARNING "Got error when trying to commit to database: %s"
              (ExnArg e).

Definition added (n : nat) : LogRecord :=
  mkLogRecord DEBUG "added %s items" (LenArg n).

(** A session after a rollback, a close or a successful commit. *)
Definition emptied (s : SessionObj) : SessionObj :=
  mkSessionObj (bind s) (autoflush s) [] false.

(** The state in which [add] evaluates the commit policy: the items are
    pending in the session and counted. *)
Definition registered (r : nat) (s : SessionObj) (items : list Item)
  (st : St) : St :=
  (set_counter (_counter (fst st) + Z.of_nat (length items)) (fst st),
   record_call (CallAddAll r items)
     (set_heap (<[r := mkSessionObj (bind s) (autoflush s)
                                    (pending s ++ items) (inactive s)]>
                  (heap (snd st))) (snd st))).

(** The state after [get_session] made a session for an adder without one. *)
Definition with_new_session (st : St) : St :=
  let w1 := record_log (mkLogRecord INFO "No session - creating new one" NoArg)
              (snd st) in
  let r := length (heap w1) in
  (set_session (Some r) (fst st),
   record_call (CallSession r (engine (fst st)))
     (set_heap (heap w1 ++ [mkSessionObj (engine (fst st)) true [] false]) w1)).

(** What [commit], the policy and [add] never touch. *)
Definition same_settings (self self' : t) : Prop :=
  engine self' = engine self /\ batch_size self' = batch_size self /\
  save_every self' = save_every self /\ session self' = session self /\
  _counter self' = _counter self.

(** A caller that goes on after an [add] that raised. *)
Definition run_adds (batches : list (list Item)) (st : St) : St :=
  fold_left (fun st items => snd (add items st)) batches st.

Definition total (batches : list (list Item)) : Z :=
  Z.of_nat (length (concat batches)).

(** Worlds to run the module in: a clock that stands still or advances by ten
    units a reading, a database that accepts every commit or refuses the
    first one. *)
Definition still : World :=
  mkWorld (fun _ => 0) 0 (fun _ => None) 0 1 [] [] [] [].

Definition ticking : World :=
  mkWorld (fun k => 10 * Z.of_nat k) 0 (fun _ => None) 0 1 [] [] [] [].

Definition refusing_once : World :=
  mkWorld (fun k => 10 * Z.of_nat k) 0
          (fun k => match k with
                    | O => Some (SQLAlchemyError 7)
                    | S _ => None
                    end)
          0 1 [] [] [] [].

(** The adder [ItemAdder(batch_size=b, save_every=s)] built in [w]. *)
Definition built (b s : Z) (w : World) : St :=
  match __init__ None b s w with
  | (Returns self, w1) => (self, w1)
  | (Raises _, w1) => (mk 0%nat b s None 0 0, w1)
  end.

(** Everything the adder holds for the database: what is stored and what is
    pending in its session. *)
Definition held (st : St) : list Item :=
  stored (snd st) ++
  match session (fst st) with
  | Some r =>
      match heap (snd st) !! r with
      | Some s => pending s
      | None => []
      end
  | None => []
  end.



(** Tactics: unfold the computations; settle a closed goal by running it. *)
Ltac unfold_py :=
  unfold commit, get_session_exit, commit_due, get_session_enter, on_session,
    py_mod, try_except, try_finally, and_then, get_self, world, update, raise,
    ret, time_time, logger, Session, Session_commit, Session_rollback,
    Session_close, Session_add_all in *.

Ltac run := vm_compute; first [reflexivity | discriminate | lia].

(** ** The methods, step by step *)

Lemma add_each_mapped items : forall pend,
  forallb is_mapped items = true ->
  add_each items pend = (Returns tt, pend ++ items).
Proof.
  induction items as [|[k|k] items IH]; intros pend H; simpl in *.
  - by rewrite app_nil_r.
  - rewrite IH by done. by rewrite <- app_assoc.
  - discriminate.
Qed.

Lemma commit_calls_app t u :
  commit_calls (t ++ u) = (commit_calls t + commit_calls u)%nat.
Proof.
  induction t as [|c t IH]; simpl; [done|].
  destruct c; simpl; lia.
Qed.



Lemma commit_spec self w r s o self' w' :
  session self = Some r -> heap w !! r = Some s ->
  commit (self, w) = (o, (self', w')) ->
  match fst (Session_commit r w) with
  | Returns _ =>
      o = Returns tt /\ self' = set_last_save (clock w (ticks w)) self /\
      calls w' = calls w ++ [CallCommit r (pending s)] /\
      stored w' = stored w ++ pending s /\ log w' = log w /\
      ticks w' = S (ticks w) /\ commit_no w' = S (commit_no w) /\
      heap w' !! r = Some (emptied s)
  | Raises e =>
      o = Raises e /\ self' = self /\ stored w' = stored w /\
      ticks w' = ticks w /\
      if isinstance_SQLAlchemyError e then
        calls w' = calls w ++ [CallCommit r (pending s); CallRollback r] /\
        log w' = log w ++ [warned e] /\
        heap w' !! r = Some (emptied s)
      else
        calls w' = calls w ++ [CallCommit r (pending s)] /\ log w' = log w /\
        heap w' !! r =
          Some (mkSessionObj (bind s) (autoflush s) (pending s) true)
  end /\
  clock w' = clock w /\ db_outcome w' = db_outcome w /\
  engines w' = engines w /\ length (heap w') = length (heap w).
Proof.
  intros Hs Hh.
  pose proof (lookup_lt_Some _ _ _ Hh) as Hlt.
  unfold_py. cbn. rewrite Hs. cbn. rewrite Hh.
  destruct (inactive s) eqn:Hi; cbn.
  - rewrite Hs. cbn. rewrite Hh. cbn. intros [= <- <- <-]. cbn.
    rewrite length_insert, list_lookup_insert_eq by done.
    rewrite <- app_assoc. done.
  - destruct (db_outcome w (commit_no w)) as [e|] eqn:Hd; cbn.
    + destruct (isinstance_SQLAlchemyError e) eqn:He; cbn.
      * rewrite Hs. cbn.
        rewrite list_lookup_insert_eq by done. cbn.
        intros [= <- <- <-]. cbn.
        rewrite !length_insert, list_lookup_insert_eq
          by (rewrite ?length_insert; done).
        rewrite <- app_assoc. done.
      * intros [= <- <- <-]. cbn.
        rewrite length_insert, list_lookup_insert_eq by done. done.
    + intros [= <- <- <-]. cbn.
      rewrite length_insert, list_lookup_insert_eq by done. done.
Qed.

Lemma add_registered items self w r s :
  session self = Some r -> heap w !! r = Some s ->
  forallb is_mapped items = true ->
  add items (self, w) =
    match get_session_exit (registered r s items (self, w)) with
    | (Returns _, (self3, w3)) =>
        (Returns tt, (self3, record_log (added (length items)) w3))
    | (Raises e, st3) => (Raises e, st3)
    end.
Proof.
  intros Hs Hh Hm.
  unfold add, get_session, get_session_enter, and_then, world, update,
    get_self, ret, Session_add_all, logger, registered. cbn.
  rewrite Hs. cbn. rewrite Hh, (add_each_mapped _ _ Hm). cbn.
  destruct (get_session_exit _) as [[[]|e] [self3 w3]]; done.
Qed.

Lemma add_no_session items self w :
  session self = None ->
  add items (self, w) = add items (with_new_session (self, w)).
Proof.
  intros Hs.
  unfold add, get_session, get_session_enter, and_then, world, update,
    get_self, ret, logger, Session, with_new_session. cbn.
  rewrite Hs. cbn. done.
Qed.

Lemma Session_commit_outcome r w w0 :
  heap w0 = heap w -> db_outcome w0 = db_outcome w ->
  commit_no w0 = commit_no w ->
  fst (Session_commit r w0) = fst (Session_commit r w).
Proof.
  intros Hh Hd Hc. unfold Session_commit. rewrite Hh, Hd, Hc.
  destruct (heap w !! r) as [s|]; [|done].
  destruct (inactive s); [done|].
  by destruct (db_outcome w (commit_no w)).
Qed.

Lemma exit_not_due self w :
  batch_size self <> 0 ->
  ~ size_due self -> ~ age_due self (clock w (ticks w)) ->
  get_session_exit (self, w) = (Returns tt, (self, set_ticks (S (ticks w)) w)).
Proof.
  unfold size_due, age_due. intros HB Hn Ha.
  unfold_py. cbn.
  destruct (Z.eqb_spec (batch_size self) 0) as [|_]; [done|]. cbn.
  destruct (Z.eqb_spec (_counter self mod batch_size self) 0) as [|_]; [done|].
  cbn.
  destruct (Z.gtb_spec (clock w (ticks w) - _last_save self) (save_every self));
    [lia|done].
Qed.

Lemma exit_due self w :
  batch_size self <> 0 ->
  size_due self \/ age_due self (clock w (ticks w)) ->
  exists w0,
    get_session_exit (self, w) = commit (self, w0) /\
    heap w0 = heap w /\ calls w0 = calls w /\ stored w0 = stored w /\
    clock w0 = clock w /\ db_outcome w0 = db_outcome w /\
    commit_no w0 = commit_no w /\ engines w0 = engines w /\
    ticks w0 = (if decide (size_due self) then ticks w else S (ticks w)).
Proof.
  unfold size_due, age_due. intros HB Hd.
  unfold get_session_exit, commit_due, py_mod, and_then, get_self, world,
    ret, time_time, logger. cbn.
  destruct (Z.eqb_spec (batch_size self) 0) as [|_]; [done|]. cbn.
  destruct (Z.eqb_spec (_counter self mod batch_size self) 0) as [E|E]; cbn.
  - eexists. split; [reflexivity|]. cbn. rewrite decide_True by done. done.
  - destruct (Z.gtb_spec (clock w (ticks w) - _last_save self)
                (save_every self)) as [G|G]; cbn.
    + eexists. split; [reflexivity|]. cbn. rewrite decide_False by done. done.
    + destruct Hd; [done|lia].
Qed.

Lemma Session_commit_fst r w s :
  heap w !! r = Some s ->
  fst (Session_commit r w) =
    if inactive s then Raises PendingRollbackError
    else match db_outcome w (commit_no w) with
         | Some e => Raises e
         | None => Returns tt
         end.
Proof.
  intros Hh. unfold Session_commit. rewrite Hh.
  destruct (inactive s); [done|].
  by destruct (db_outcome w (commit_no w)).
Qed.

Lemma add_spec items self w r s o self' w' :
  session self = Some r -> heap w !! r = Some s ->
  forallb is_mapped items = true -> batch_size self <> 0 ->
  add items (self, w) = (o, (self', w')) ->
  let self1 := set_counter (_counter self + Z.of_nat (length items)) self in
  let s1 := mkSessionObj (bind s) (autoflush s) (pending s ++ items)
                         (inactive s) in
  _counter self' = _counter self1 /\ session self' = Some r /\
  batch_size self' = batch_size self /\ save_every self' = save_every self /\
  engine self' = engine self /\
  length (heap w') = length (heap w) /\ clock w' = clock w /\
  db_outcome w' = db_outcome w /\
  ((size_due self1 \/ age_due self1 (clock w (ticks w))) /\
   (exists rb,
      calls w' = calls w ++ CallAddAll r items :: CallCommit r (pending s1) :: rb
      /\ commit_calls rb = 0%nat) /\
   match fst (Session_commit r w) with
   | Returns _ =>
       o = Returns tt /\ stored w' = stored w ++ pending s1 /\
       heap w' !! r = Some (emptied s) /\
       _last_save self' =
         clock w (if decide (size_due self1) then ticks w else S (ticks w))
   | Raises e =>
       o = Raises e /\ stored w' = stored w /\
       _last_save self' = _last_save self /\
       ticks w' = (if decide (size_due self1) then ticks w else S (ticks w)) /\
       (isinstance_SQLAlchemyError e = true -> heap w' !! r = Some (emptied s))
   end
   \/
   ~ size_due self1 /\ ~ age_due self1 (clock w (ticks w)) /\
   o = Returns tt /\ calls w' = calls w ++ [CallAddAll r items] /\
   stored w' = stored w /\ _last_save self' = _last_save self /\
   commit_no w' = commit_no w /\ ticks w' = S (ticks w) /\
   heap w' !! r = Some s1).
Proof.
  intros Hs Hh Hm HB Hadd self1 s1.
  pose proof (lookup_lt_Some _ _ _ Hh) as Hlt.
  rewrite (add_registered _ _ _ _ _ Hs Hh Hm) in Hadd.
  unfold registered in Hadd. cbn in Hadd. fold self1 s1 in Hadd.
  set (w1 := record_call _ _) in Hadd.
  assert (Hh1 : heap w1 !! r = Some s1)
    by (subst w1; cbn; by rewrite list_lookup_insert_eq).
  destruct (decide (size_due self1 \/ age_due self1 (clock w (ticks w))))
    as [Hd|Hd].
  - destruct (exit_due self1 w1 HB Hd)
      as (w0 & E & Eh & Ec & Est & Ecl & Edb & Ecn & Een & Et).
    rewrite E in Hadd.
    destruct (commit (self1, w0)) as [o3 [self3 w3]] eqn:C.
    assert (Hh0 : heap w0 !! r = Some s1) by (by rewrite Eh).
    pose proof (commit_spec self1 w0 r s1 o3 self3 w3 Hs Hh0 C) as P.
    rewrite (Session_commit_outcome r w1 w0 Eh Edb Ecn) in P.
    rewrite (Session_commit_fst r w1 s1 Hh1) in P.
    rewrite (Session_commit_fst r w s Hh).
    subst w1. cbn in *.
    destruct (inactive s) eqn:Hi; cbn in P.
    + destruct P as ((-> & -> & P1 & P2 & P3 & P4 & P5) & Q1 & Q2 & Q3 & Q4).
      injection Hadd as <- <- <-.
      rewrite Q1, Q2, Q4, Eh, length_insert, Ecl, Edb.
      repeat split; try done. left. split; [done|].
      rewrite P3, Ec, P1, Est, P2, Et, <- app_assoc. cbn.
      split; [by eexists|]. done.
    + destruct (db_outcome w (commit_no w)) as [e|] eqn:Hdb.
      * destruct P as ((-> & -> & P1 & P2 & P) & Q1 & Q2 & Q3 & Q4).
        injection Hadd as <- <- <-.
        rewrite Q1, Q2, Q4, Eh, length_insert, Ecl, Edb.
        repeat split; try done. left. split; [done|].
        rewrite P1, Est, P2, Et.
        destruct (isinstance_SQLAlchemyError e) eqn:Ie.
        -- destruct P as (P3 & P4 & P5). rewrite P3, Ec, <- app_assoc. cbn.
           split; [by eexists|]. done.
        -- destruct P as (P3 & P4). rewrite P3, Ec, <- app_assoc. cbn.
           split; [by eexists|]. done.
      * destruct P as ((-> & -> & P1 & P2 & P3 & P4 & P5 & P6)
                       & Q1 & Q2 & Q3 & Q4).
        injection Hadd as <- <- <-. cbn.
        rewrite Q1, Q2, Q4, Eh, length_insert, Ecl, Edb.
        repeat split; try done. left. split; [done|].
        rewrite P1, Ec, P2, Est, Et, <- app_assoc. cbn.
        split; [by eexists|]. done.
  - apply Decidable.not_or in Hd as [Hn Ha].
    rewrite (exit_not_due self1 w1 HB Hn) in Hadd by (subst w1; done).
    injection Hadd as <- <- <-. subst w1. cbn. rewrite length_insert.
    repeat split; try done. right. repeat split; try done.
Qed.

Lemma commit_frame self w r s o self' w' :
  session self = Some r -> heap w !! r = Some s ->
  commit (self, w) = (o, (self', w')) ->
  same_settings self self' /\
  length (heap w') = length (heap w) /\
  (exists s', heap w' !! r = Some s' /\ bind s' = bind s) /\
  exists rest,
    calls w' = calls w ++ rest /\ session_calls rest = 0%nat /\
    commit_calls rest = 1%nat.
Proof.
  intros Hs Hh C.
  destruct (commit_spec self w r s o self' w' Hs Hh C) as (P & _ & _ & _ & Hl).
  unfold same_settings.
  destruct (fst (Session_commit r w)) as [[]|e].
  - destruct P as (_ & -> & Hc & _ & _ & _ & _ & Hh').
    split_and!; try done; by eexists.
  - destruct P as (_ & -> & _ & _ & P).
    destruct (isinstance_SQLAlchemyError e).
    + destruct P as (Hc & _ & Hh').
      split_and!; try done; by eexists.
    + destruct P as (Hc & _ & Hh').
      split_and!; try done; by eexists.
Qed.

Lemma exit_frame self w r s o self' w' :
  session self = Some r -> heap w !! r = Some s ->
  get_session_exit (self, w) = (o, (self', w')) ->
  same_settings self self' /\
  length (heap w') = length (heap w) /\
  (exists s', heap w' !! r = Some s' /\ bind s' = bind s) /\
  exists rest,
    calls w' = calls w ++ rest /\ session_calls rest = 0%nat /\
    (commit_calls rest <= 1)%nat.
Proof.
  intros Hs Hh.
  assert (forall w0, heap w0 = heap w -> calls w0 = calls w ->
            commit (self, w0) = (o, (self', w')) ->
            same_settings self self' /\
            length (heap w') = length (heap w) /\
            (exists s', heap w' !! r = Some s' /\ bind s' = bind s) /\
            exists rest,
              calls w' = calls w ++ rest /\ session_calls rest = 0%nat /\
              (commit_calls rest <= 1)%nat) as Hcommit.
  { intros w0 Eh Ec C. rewrite <- Eh in Hh.
    destruct (commit_frame self w0 r s o self' w' Hs Hh C)
      as (F & Hl & Hb & rest & Hc & H0 & H1).
    rewrite Eh in Hl. rewrite Ec in Hc.
    split_and!; try done. exists rest. split_and!; try done. lia. }
  assert (same_settings self self) as Hrefl by done.
  unfold get_session_exit, commit_due, py_mod, and_then, get_self, world,
    ret, raise, time_time, logger. cbn.
  destruct (batch_size self =? 0); cbn.
  { intros [= <- <- <-]. split_and!; try done; [by exists s|].
    exists []. rewrite app_nil_r. cbn. split_and!; [done|done|lia]. }
  destruct (_counter self mod batch_size self =? 0); cbn.
  { by apply Hcommit. }
  destruct (clock w (ticks w) - _last_save self >? save_every self); cbn.
  { by apply Hcommit. }
  intros [= <- <- <-]. cbn. split_and!; try done; [by exists s|].
  exists []. rewrite app_nil_r. cbn. split_and!; [done|done|lia].
Qed.

Lemma add_each_unmapped items : forall pend,
  forallb is_mapped items = false ->
  exists e pend', add_each items pend = (Raises e, pend').
Proof.
  induction items as [|[k|k] items IH]; intros pend H; simpl in *.
  - discriminate.
  - by apply IH.
  - by eexists _, _.
Qed.

Lemma add_frame items self w r s o self' w' :
  session self = Some r -> heap w !! r = Some s ->
  add items (self, w) = (o, (self', w')) ->
  engine self' = engine self /\ batch_size self' = batch_size self /\
  save_every self' = save_every self /\ session self' = Some r /\
  _counter self' =
    (if forallb is_mapped items
     then _counter self + Z.of_nat (length items) else _counter self) /\
  length (heap w') = length (heap w) /\
  (exists s', heap w' !! r = Some s' /\ bind s' = bind s) /\
  exists rest,
    calls w' = calls w ++ CallAddAll r items :: rest /\
    session_calls rest = 0%nat /\ (commit_calls rest <= 1)%nat.
Proof.
  intros Hs Hh.
  pose proof (lookup_lt_Some _ _ _ Hh) as Hlt.
  destruct (forallb is_mapped items) eqn:Hm.
  - rewrite (add_registered _ _ _ _ _ Hs Hh Hm). unfold registered. cbn.
    set (self1 := set_counter _ self). set (w1 := record_call _ _).
    destruct (get_session_exit (self1, w1)) as [o3 [self3 w3]] eqn:X.
    apply (exit_frame self1 w1 r
             (mkSessionObj (bind s) (autoflush s) (pending s ++ items)
                           (inactive s))) in X as
        ((F1 & F2 & F3 & F4 & F5) & Hl & Hb & rest & Hc & H0 & H1);
      [|done|subst w1; cbn; by rewrite list_lookup_insert_eq].
    subst w1 self1. cbn in *. rewrite length_insert in Hl.
    rewrite <- app_assoc in Hc. cbn in Hc.
    destruct o3 as [[]|e]; intros [= <- <- <-]; cbn;
      (split_and!; try done; [by rewrite F4|by exists rest]).
  - destruct (add_each_unmapped items (pending s) Hm) as (e & pend' & Ea).
    unfold add, get_session, get_session_enter, and_then, world, update,
      get_self, ret, Session_add_all, logger. cbn.
    rewrite Hs. cbn. rewrite Hh, Ea. cbn.
    intros [= <- <- <-]. cbn. rewrite length_insert.
    split_and!; try done.
    + eexists. by rewrite list_lookup_insert_eq.
    + exists []. cbn. split_and!; [done|done|lia].
Qed.

Lemma add_cases items self w :
  valid_session (self, w) = true ->
  exists self0 w0 r s pre,
    add items (self, w) = add items (self0, w0) /\
    session self0 = Some r /\ heap w0 !! r = Some s /\
    calls w0 = calls w ++ pre /\ commit_calls pre = 0%nat /\
    _counter self0 = _counter self /\ batch_size self0 = batch_size self /\
    save_every self0 = save_every self /\ _last_save self0 = _last_save self /\
    clock w0 = clock w /\ ticks w0 = ticks w /\
    db_outcome w0 = db_outcome w /\ commit_no w0 = commit_no w /\
    stored w0 = stored w.
Proof.
  unfold valid_session. cbn. intros Hv.
  destruct (session self) as [r|] eqn:Hs.
  - apply bool_decide_eq_true, lookup_lt_is_Some in Hv as [s Hh].
    exists self, w, r, s, []. rewrite app_nil_r. done.
  - eexists _, _, (length (heap w)), _, [_].
    split; [by apply add_no_session|]. cbn.
    split; [done|]. split; [by apply list_lookup_middle|]. done.
Qed.

Lemma since_app w w' t : calls w' = calls w ++ t -> since w w' = t.
Proof. intros E. unfold since. rewrite E. apply drop_app_length. Qed.

(** ** The commit policy of [add] *)

Lemma add_trace items self w o self' w' :
  valid_session (self, w) = true ->
  forallb is_mapped items = true ->
  batch_size self <> 0 ->
  add items (self, w) = (o, (self', w')) ->
  let c := _counter self + Z.of_nat (length items) in
  let due := c mod batch_size self = 0 \/
             clock w (ticks w) - _last_save self > save_every self in
  _counter self' = c /\
  exists pre r old,
    commit_calls pre = 0%nat /\
    (due /\
     (exists rb,
        since w w' =
          pre ++ CallAddAll r items :: CallCommit r (old ++ items) :: rb /\
        commit_calls rb = 0%nat)
     \/ ~ due /\ since w w' = pre ++ [CallAddAll r items]).
Proof.
  intros Hv Hm HB Hadd. cbv zeta.
  destruct (add_cases items self w Hv)
    as (self0 & w0 & r & s & pre & E & Hs & Hh & Ec & Ep & E1 & E2 & E3 & E4
        & E5 & E6 & E7 & E8 & E9).
  rewrite E in Hadd. rewrite <- E2 in HB.
  destruct (add_spec items self0 w0 r s o self' w' Hs Hh Hm HB Hadd)
    as (Hc & _ & _ & _ & _ & _ & _ & _ & H).
  cbn in Hc. rewrite E1 in Hc.
  split; [done|]. exists pre, r, (pending s). split; [done|].
  destruct H as [(Hd & (rb & Hc' & Hrb) & _)|(Hn & Ha & _ & Hc' & _)];
    unfold size_due, age_due in *; cbn in *;
    rewrite E1, E2, E3, E4, E5, E6 in *;
    rewrite Ec, <- app_assoc in Hc'; apply since_app in Hc'.
  - left. split; [done|]. by exists rb.
  - right. split; [tauto|done].
Qed.

Lemma add_due_commits items self w o self' w' :
  valid_session (self, w) = true ->
  forallb is_mapped items = true ->
  batch_size self <> 0 ->
  add items (self, w) = (o, (self', w')) ->
  (_counter self + Z.of_nat (length items)) mod batch_size self = 0 \/
  clock w (ticks w) - _last_save self > save_every self ->
  commit_calls (since w w') = 1%nat.
Proof.
  intros Hv Hm HB Hadd Hdue.
  destruct (add_trace items self w o self' w' Hv Hm HB Hadd)
    as (_ & pre & r & old & Hp & [(_ & rb & -> & Hrb)|(Hn & _)]); [|done].
  rewrite commit_calls_app. cbn. lia.
Qed.

(** C1. An [add] whose items the session accepts counts them and then calls
    [Session.commit] if and only if the new count is a multiple of
    [batch_size] or the clock reads more than [save_every] past the last
    save; that commit comes right after the items were added and flushes
    them with what was pending before. *)
Theorem add_commits_iff_due items self w o self' w' :
  valid_session (self, w) = true ->
  forallb is_mapped items = true ->
  batch_size self <> 0 ->
  add items (self, w) = (o, (self', w')) ->
  let c := _counter self + Z.of_nat (length items) in
  let due := c mod batch_size self = 0 \/
             clock w (ticks w) - _last_save self > save_every self in
  _counter self' = c /\
  ((0 < commit_calls (since w w'))%nat <-> due) /\
  (due ->
   commit_calls (since w w') = 1%nat /\
   exists pre r old rb,
     since w w' =
       pre ++ CallAddAll r items :: CallCommit r (old ++ items) :: rb /\
     commit_calls pre = 0%nat /\ commit_calls rb = 0%nat).
Proof.
  intros Hv Hm HB Hadd. cbv zeta.
  destruct (add_trace items self w o self' w' Hv Hm HB Hadd)
    as (Hc & pre & r & old & Hp & [(Hd & rb & Hs & Hrb)|(Hn & Hs)]).
  - assert (commit_calls (since w w') = 1%nat) as Hone
      by (rewrite Hs, commit_calls_app; cbn; lia).
    split; [done|]. split; [split; [done|lia]|].
    intros _. split; [done|]. by exists pre, r, old, rb.
  - assert (commit_calls (since w w') = 0%nat) as Hzero
      by (rewrite Hs, commit_calls_app; cbn; lia).
    split; [done|]. split; [split; [lia|done]|done].
Qed.

(** C5. When the new count is not a multiple of [batch_size] and the clock
    reads more than [save_every] past the last save, the [add] calls
    [Session.commit]. *)
Theorem add_commits_when_stale items self w o self' w' :
  valid_session (self, w) = true ->
  forallb is_mapped items = true ->
  batch_size self <> 0 ->
  (_counter self + Z.of_nat (length items)) mod batch_size self <> 0 ->
  clock w (ticks w) - _last_save self > save_every self ->
  add items (self, w) = (o, (self', w')) ->
  commit_calls (since w w') = 1%nat.
Proof.
  intros Hv Hm HB _ Hage Hadd.
  apply (add_due_commits items self w o self' w' Hv Hm HB Hadd). by right.
Qed.

Lemma init_spec eng B S w :
  exists self w1,
    __init__ eng B S w = (Returns self, w1) /\
    batch_size self = B /\ save_every self = S /\ _counter self = 0 /\
    _last_save self = clock w (ticks w) /\
    session self = Some (length (heap w)) /\
    engine self = default (engines w) eng /\
    heap w1 = heap w ++ [mkSessionObj (engine self) true [] false] /\
    calls w1 = calls w ++ [CallSession (length (heap w)) (engine self)] /\
    valid_session (self, w1) = true.
Proof.
  unfold __init__, and_then, ret, create_engine, Session, time_time,
    valid_session.
  destruct eng as [e|]; cbn; eexists _, _; (split; [reflexivity|]); cbn;
    split_and!; try done; apply bool_decide_eq_true;
    rewrite length_app; cbn; lia.
Qed.

(** C10. An [add] of no items on an adder whose count is a multiple of
    [batch_size] calls [Session.commit]; so does the first one on an adder
    just built, whose count is 0. *)
Theorem empty_add_commits :
  (forall self w o self' w',
     valid_session (self, w) = true -> batch_size self <> 0 ->
     _counter self mod batch_size self = 0 ->
     add [] (self, w) = (o, (self', w')) ->
     commit_calls (since w w') = 1%nat /\ _counter self' = _counter self) /\
  (forall eng B S w self w1 o self' w',
     B <> 0 -> __init__ eng B S w = (Returns self, w1) ->
     add [] (self, w1) = (o, (self', w')) ->
     commit_calls (since w1 w') = 1%nat).
Proof.
  assert (forall self w o self' w',
     valid_session (self, w) = true -> batch_size self <> 0 ->
     _counter self mod batch_size self = 0 ->
     add [] (self, w) = (o, (self', w')) ->
     commit_calls (since w w') = 1%nat /\ _counter self' = _counter self)
    as Hgen.
  { intros self w o self' w' Hv HB Hz Hadd.
    split.
    - apply (add_due_commits [] self w o self' w' Hv eq_refl HB Hadd).
      left. cbn. by rewrite Z.add_0_r.
    - destruct (add_trace [] self w o self' w' Hv eq_refl HB Hadd) as (Hc & _).
      cbn in Hc. by rewrite Z.add_0_r in Hc. }
  split; [done|].
  intros eng B S w self w1 o self' w' HB Hi Hadd.
  destruct (init_spec eng B S w)
    as (self0 & w0 & Hi' & E1 & _ & E3 & _ & _ & _ & _ & _ & Hv).
  rewrite Hi in Hi'. injection Hi' as <- <-.
  apply (Hgen self w1 o self' w'); try done.
  - by rewrite E1.
  - by rewrite E3, E1.
Qed.

(** ** Sessions that are missing *)

(** C8. An [add] on an adder without a session first makes one, bound to the
    adder's engine and new in the heap, and adds the items to it; an adder
    with a session keeps it, and no session is made. *)
Theorem add_makes_missing_session items self w o self' w' :
  valid_session (self, w) = true ->
  add items (self, w) = (o, (self', w')) ->
  match session self with
  | None =>
      let r := length (heap w) in
      heap w !! r = None /\ session self' = Some r /\
      (exists s', heap w' !! r = Some s' /\ bind s' = engine self) /\
      exists rest,
        since w w' = CallSession r (engine self) :: CallAddAll r items :: rest
        /\ session_calls rest = 0%nat
  | Some r =>
      session self' = Some r /\ length (heap w') = length (heap w) /\
      (exists s s', heap w !! r = Some s /\ heap w' !! r = Some s' /\
                    bind s' = bind s) /\
      exists rest,
        since w w' = CallAddAll r items :: rest /\ session_calls rest = 0%nat
  end.
Proof.
  unfold valid_session. cbn. intros Hv Hadd.
  destruct (session self) as [r|] eqn:Hs.
  - apply bool_decide_eq_true, lookup_lt_is_Some in Hv as [s Hh].
    destruct (add_frame items self w r s o self' w' Hs Hh Hadd)
      as (_ & _ & _ & Hs' & _ & Hl & (s' & Hh' & Hb) & rest & Hc & H0 & _).
    split_and!; try done; [by exists s, s'|].
    exists rest. split; [by apply since_app|done].
  - rewrite (add_no_session items self w Hs) in Hadd.
    unfold with_new_session in Hadd. cbn in Hadd.
    set (r := length (heap w)) in *.
    eapply (add_frame items _ _ r (mkSessionObj (engine self) true [] false))
      in Hadd as (_ & _ & _ & Hs' & _ & Hl & (s' & Hh' & Hb) & rest & Hc & H0
                  & _); [|done|cbn; by apply list_lookup_middle].
    cbn in *. split_and!; try done.
    + by apply lookup_ge_None.
    + by exists s'.
    + exists rest. split; [|done]. apply since_app.
      by rewrite Hc, <- app_assoc.
Qed.

(** ** The counter *)

Lemma commit_counter st : _counter (fst (snd (commit st))) = _counter (fst st).
Proof.
  destruct st as [self w].
  destruct (session self) as [r|] eqn:Hs.
  - destruct (heap w !! r) as [s|] eqn:Hh.
    + destruct (commit (self, w)) as [o [self' w']] eqn:C.
      by destruct (commit_frame self w r s o self' w' Hs Hh C)
        as ((_ & _ & _ & _ & Hc) & _).
    + unfold_py. cbn. rewrite Hs. cbn. by rewrite Hh.
  - unfold_py. cbn. by rewrite Hs.
Qed.

Lemma add_counter items st :
  valid_session st = true ->
  _counter (fst (snd (add items st))) =
    (if forallb is_mapped items
     then _counter (fst st) + Z.of_nat (length items)
     else _counter (fst st)) /\
  valid_session (snd (add items st)) = true.
Proof.
  destruct st as [self w]. intros Hv.
  destruct (add_cases items self w Hv)
    as (self0 & w0 & r & s & pre & E & Hs & Hh & _ & _ & E1 & _).
  rewrite E.
  destruct (add items (self0, w0)) as [o [self' w']] eqn:Hadd.
  destruct (add_frame items self0 w0 r s o self' w' Hs Hh Hadd)
    as (_ & _ & _ & Hs' & Hc & Hl & (s' & Hh' & _) & _).
  cbn. rewrite Hc, E1. split; [done|].
  unfold valid_session. cbn. rewrite Hs'.
  apply bool_decide_eq_true. by eapply lookup_lt_Some.
Qed.

(** C4. [commit] leaves the counter as it was, in every state and whatever
    the outcome; an [add] whose items the session accepts raises it by their
    number, whether or not it commits; over a run of such adds it is the
    count of everything added. *)
Theorem commit_keeps_counter :
  (forall st, _counter (fst (snd (commit st))) = _counter (fst st)) /\
  (forall items st,
     valid_session st = true -> forallb is_mapped items = true ->
     _counter (fst (snd (add items st))) =
       _counter (fst st) + Z.of_nat (length items)) /\
  (forall batches st,
     valid_session st = true ->
     Forall (fun items => forallb is_mapped items = true) batches ->
     _counter (fst (run_adds batches st)) = _counter (fst st) + total batches).
Proof.
  split_and!.
  - apply commit_counter.
  - intros items st Hv Hm.
    destruct (add_counter items st Hv) as [Hc _]. by rewrite Hm in Hc.
  - intros batches. unfold run_adds, total.
    induction batches as [|items batches IH]; intros st Hv Hall; cbn.
    + lia.
    + apply Forall_cons in Hall as [Hm Hall].
      destruct (add_counter items st Hv) as [Hc Hv']. rewrite Hm in Hc.
      rewrite IH, Hc, length_app by done. lia.
Qed.

(** ** Failure and success of [commit] *)

Lemma add_returns items self w r s :
  session self = Some r -> heap w !! r = Some s -> inactive s = false ->
  forallb is_mapped items = true -> batch_size self <> 0 ->
  db_outcome w (commit_no w) = None ->
  fst (add items (self, w)) = Returns tt.
Proof.
  intros Hs Hh Hi Hm HB Hdb.
  destruct (add items (self, w)) as [o [self' w']] eqn:Hadd.
  destruct (add_spec items self w r s o self' w' Hs Hh Hm HB Hadd)
    as (_ & _ & _ & _ & _ & _ & _ & _ & [(_ & _ & H)|(_ & _ & H & _)]);
    [|done].
  rewrite (Session_commit_fst r w s Hh), Hi, Hdb in H. by destruct H.
Qed.

(** C3. When [Session.commit] raises a [SQLAlchemyError], [commit] logs a
    warning with it, rolls the session back, which empties it, and raises
    the same error, having called the database once; nothing is stored and
    the adder is as before, so that a later [add] of accepted items returns
    when the database accepts what that [add] commits. When [Session.commit]
    returns, the last save becomes the clock's next answer. *)
Theorem commit_failure_and_success self w r s o self' w' :
  session self = Some r -> heap w !! r = Some s ->
  commit (self, w) = (o, (self', w')) ->
  match fst (Session_commit r w) with
  | Raises e =>
      isinstance_SQLAlchemyError e = true ->
      o = Raises e /\
      log w' = log w ++ [warned e] /\
      since w w' = [CallCommit r (pending s); CallRollback r] /\
      heap w' !! r = Some (emptied s) /\
      stored w' = stored w /\
      self' = self /\
      (forall items,
         forallb is_mapped items = true -> batch_size self <> 0 ->
         db_outcome w' (commit_no w') = None ->
         fst (add items (self', w')) = Returns tt)
  | Returns _ =>
      o = Returns tt /\
      _last_save self' = clock w (ticks w) /\
      since w w' = [CallCommit r (pending s)] /\
      stored w' = stored w ++ pending s
  end.
Proof.
  intros Hs Hh C.
  destruct (commit_spec self w r s o self' w' Hs Hh C) as (P & _).
  destruct (fst (Session_commit r w)) as [[]|e].
  - destruct P as (-> & -> & Hc & Hst & _).
    split_and!; try done. by apply since_app.
  - intros He. rewrite He in P.
    destruct P as (-> & -> & Hst & _ & Hc & Hl & Hh').
    split_and!; try done; [by apply since_app|].
    intros items Hm HB Hdb.
    by apply (add_returns items self w' r (emptied s)).
Qed.

(** C9. A [commit] in which [Session.commit] raises a [SQLAlchemyError]
    leaves the last save as it was. If the clock had already read more than
    [save_every] past it and does not run backwards, the next [add] of
    accepted items finds the age condition true and calls [Session.commit]
    again. *)
Theorem failed_commit_is_retried self w r s e o self' w' now0 items o2 self2 w2 :
  session self = Some r -> heap w !! r = Some s ->
  fst (Session_commit r w) = Raises e ->
  isinstance_SQLAlchemyError e = true ->
  commit (self, w) = (o, (self', w')) ->
  now0 - _last_save self > save_every self ->
  now0 <= clock w' (ticks w') ->
  forallb is_mapped items = true -> batch_size self <> 0 ->
  add items (self', w') = (o2, (self2, w2)) ->
  o = Raises e /\
  _last_save self' = _last_save self /\
  clock w' (ticks w') - _last_save self' > save_every self' /\
  commit_calls (since w' w2) = 1%nat.
Proof.
  intros Hs Hh Hr He C Hage Hmono Hm HB Hadd.
  destruct (commit_spec self w r s o self' w' Hs Hh C) as (P & _).
  rewrite Hr, He in P. destruct P as (-> & -> & _ & _ & _ & _ & Hh').
  split_and!; try done; [lia|].
  assert (valid_session (self, w') = true) as Hv.
  { unfold valid_session. cbn. rewrite Hs. apply bool_decide_eq_true.
    by eapply lookup_lt_Some. }
  apply (add_due_commits items self w' o2 self2 w2 Hv Hm HB Hadd). right. lia.
Qed.

(** ** Runs of the adder *)

(** A full batch on a still clock: the count reaches [batch_size]. *)
Lemma add_commits_iff_due_witness :
  let st := built 2 100 still in
  let res := add [Mapped 1; Mapped 2] st in
  _counter (fst (snd res)) = 2 /\
  commit_calls (since (snd st) (snd (snd res))) = 1%nat.
Proof.
  intros st res.
  destruct (add_commits_iff_due [Mapped 1; Mapped 2] (fst st) (snd st)
              (fst res) (fst (snd res)) (snd (snd res)))
    as (Hc & _ & H); [run|run|run|run|].
  split; [exact Hc|]. apply H. left. run.
Defined.

(** One item of three, ten units after the adder was built. *)
Lemma add_commits_when_stale_witness :
  let st := built 3 5 ticking in
  commit_calls (since (snd st) (snd (snd (add [Mapped 1] st)))) = 1%nat.
Proof.
  intros st.
  apply (add_commits_when_stale [Mapped 1] (fst st) (snd st)
           (fst (add [Mapped 1] st)) (fst (snd (add [Mapped 1] st))));
    run.
Defined.

(** No items on an adder just built. *)
Lemma empty_add_commits_witness :
  let st := built 3 1 still in
  commit_calls (since (snd st) (snd (snd (add [] st)))) = 1%nat.
Proof.
  intros st.
  apply (proj1 empty_add_commits (fst st) (snd st) (fst (add [] st))
           (fst (snd (add [] st))) (snd (snd (add [] st))));
    run.
Defined.

(** An adder whose session was set to [None]. *)
Lemma add_makes_missing_session_witness :
  let st := built 3 1 still in
  let lost := (set_session None (fst st), snd st) in
  session (fst (snd (add [Mapped 1] lost))) = Some 1%nat.
Proof.
  intros st lost.
  assert (valid_session (fst lost, snd lost) = true) as Hv by run.
  assert (add [Mapped 1] (fst lost, snd lost) =
            (fst (add [Mapped 1] lost),
             (fst (snd (add [Mapped 1] lost)),
              snd (snd (add [Mapped 1] lost))))) as Hadd by run.
  exact (proj1 (proj2 (add_makes_missing_session _ _ _ _ _ _ Hv Hadd))).
Defined.

(** Two adds of two items. *)
Lemma commit_keeps_counter_witness :
  let st := built 3 1 still in
  _counter (fst (run_adds [[Mapped 1; Mapped 2]; [Mapped 3; Mapped 4]] st)) = 4.
Proof.
  intros st.
  apply (proj2 (proj2 commit_keeps_counter)
           [[Mapped 1; Mapped 2]; [Mapped 3; Mapped 4]] st); [run|].
  repeat constructor.
Defined.

(** A first commit the database refuses, then an [add]. *)
Lemma commit_failure_and_success_witness :
  let st := built 3 5 refusing_once in
  fst (commit st) = Raises (SQLAlchemyError 7) /\
  fst (add [Mapped 1] (snd (commit st))) = Returns tt.
Proof.
  intros st.
  assert (session (fst st) = Some 0%nat) as Hs by run.
  assert (heap (snd st) !! 0%nat = Some (mkSessionObj 1%nat true [] false))
    as Hh by run.
  assert (commit (fst st, snd st) =
            (fst (commit st), (fst (snd (commit st)), snd (snd (commit st)))))
    as C by run.
  pose proof (commit_failure_and_success _ _ _ _ _ _ _ Hs Hh C) as H.
  change (fst (Session_commit 0 (snd st)))
    with (@Raises unit (SQLAlchemyError 7)) in H.
  destruct (H eq_refl) as (H1 & _ & _ & _ & _ & _ & H2).
  split; [exact H1|].
  apply (H2 [Mapped 1]); run.
Defined.

(** The same refusal, with the clock already past [save_every]. *)
Lemma failed_commit_is_retried_witness :
  let st := built 3 5 refusing_once in
  let st' := snd (commit st) in
  commit_calls (since (snd st') (snd (snd (add [Mapped 1] st')))) = 1%nat.
Proof.
  intros st st'.
  apply (failed_commit_is_retried (fst st) (snd st) 0%nat
           (mkSessionObj 1%nat true [] false) (SQLAlchemyError 7)
           (fst (commit st)) (fst st') (snd st') 6 [Mapped 1]
           (fst (add [Mapped 1] st')) (fst (snd (add [Mapped 1] st')))
           (snd (snd (add [Mapped 1] st'))));
    run.
Defined.

(** C2. With [batch_size] 3 and the clock standing still, two adds of two
    items each take the count from 2 to 4, past 3, and both return without
    one call of [Session.commit]: the four items stay pending and nothing is
    stored. *)
Example add_skips_crossed_multiple :
  let st0 := built 3 1 still in
  let r1 := add [Mapped 1; Mapped 2] st0 in
  let r2 := add [Mapped 3; Mapped 4] (snd r1) in
  fst r1 = Returns tt /\ fst r2 = Returns tt /\
  _counter (fst (snd r1)) = 2 /\ _counter (fst (snd r2)) = 4 /\
  commit_calls (calls (snd (snd r2))) = 0%nat /\
  stored (snd (snd r2)) = [] /\
  map pending (heap (snd (snd r2))) =
    [[Mapped 1; Mapped 2; Mapped 3; Mapped 4]].
Proof. vm_compute. split_and!; reflexivity. Qed.

(** ** Further properties of the adder *)


(** X2. [commit] on an adder without a session raises [AttributeError] and
    changes nothing: no call, no log record, no reading of the clock. *)
Theorem commit_without_session self w :
  session self = None ->
  commit (self, w) = (Raises AttributeError, (self, w)).
Proof.
  intros Hs. unfold_py. cbn. rewrite Hs. cbn. done.
Qed.


(** X4. When the session refuses one of the items, [add] raises what
    [Session.add_all] raised and stops there: the adder is unchanged, so the
    items are not counted, the policy is not evaluated (no commit, no reading
    of the clock) and nothing is logged. *)
Theorem add_refused_item items self w r s :
  session self = Some r -> heap w !! r = Some s ->
  forallb is_mapped items = false ->
  exists e w',
    add items (self, w) = (Raises e, (self, w')) /\
    fst (Session_add_all r items w) = Raises e /\
    since w w' = [CallAddAll r items] /\
    ticks w' = ticks w /\ log w' = log w /\ stored w' = stored w /\
    commit_no w' = commit_no w.
Proof.
  intros Hs Hh Hm.
  destruct (add_each_unmapped items (pending s) Hm) as (e & pend' & Ea).
  unfold add, get_session, get_session_enter, and_then, world, update,
    get_self, ret, Session_add_all, logger. cbn.
  rewrite Hs. cbn. rewrite Hh, Ea. cbn.
  eexists _, _. split; [reflexivity|]. cbn.
  split_and!; try done. by apply since_app.
Qed.

(** X5. With [batch_size] 0 an [add] of accepted items raises
    [ZeroDivisionError] after it has added and counted them: the items stay
    pending, nothing is committed and the clock is not read. *)
Theorem add_zero_batch_size items self w r s :
  session self = Some r -> heap w !! r = Some s ->
  forallb is_mapped items = true ->
  batch_size self = 0 ->
  exists w',
    add items (self, w) =
      (Raises ZeroDivisionError,
       (set_counter (_counter self + Z.of_nat (length items)) self, w')) /\
    since w w' = [CallAddAll r items] /\
    heap w' !! r =
      Some (mkSessionObj (bind s) (autoflush s) (pending s ++ items)
                         (inactive s)) /\
    ticks w' = ticks w /\ log w' = log w /\ stored w' = stored w.
Proof.
  intros Hs Hh Hm HB.
  pose proof (lookup_lt_Some _ _ _ Hh) as Hlt.
  rewrite (add_registered _ _ _ _ _ Hs Hh Hm). unfold registered.
  unfold get_session_exit, commit_due, py_mod, and_then, get_self, raise.
  cbn. rewrite HB. cbn.
  eexists. split; [reflexivity|]. cbn.
  split_and!; try done; [by apply since_app|].
  by rewrite list_lookup_insert_eq.
Qed.

Lemma commit_shape self w r s o self' w' :
  session self = Some r -> heap w !! r = Some s ->
  commit (self, w) = (o, (self', w')) ->
  calls w' = calls w ++ [CallCommit r (pending s)] \/
  calls w' = calls w ++ [CallCommit r (pending s); CallRollback r].
Proof.
  intros Hs Hh C.
  destruct (commit_spec self w r s o self' w' Hs Hh C) as (P & _).
  destruct (fst (Session_commit r w)) as [[]|e].
  - left. by destruct P as (_ & _ & Hc & _).
  - destruct P as (_ & _ & _ & _ & P).
    destruct (isinstance_SQLAlchemyError e).
    + right. by destruct P as (Hc & _).
    + left. by destruct P as (Hc & _).
Qed.

Lemma exit_shape self w r s o self' w' :
  session self = Some r -> heap w !! r = Some s ->
  get_session_exit (self, w) = (o, (self', w')) ->
  calls w' = calls w \/
  calls w' = calls w ++ [CallCommit r (pending s)] \/
  calls w' = calls w ++ [CallCommit r (pending s); CallRollback r].
Proof.
  intros Hs Hh.
  assert (forall w0, heap w0 = heap w -> calls w0 = calls w ->
            commit (self, w0) = (o, (self', w')) ->
            calls w' = calls w \/
            calls w' = calls w ++ [CallCommit r (pending s)] \/
            calls w' = calls w ++ [CallCommit r (pending s); CallRollback r])
    as Hcommit.
  { intros w0 Eh Ec C. rewrite <- Eh in Hh. rewrite <- Ec. right.
    by apply (commit_shape self w0 r s o self' w'). }
  unfold get_session_exit, commit_due, py_mod, and_then, get_self, world,
    ret, raise, time_time, logger. cbn.
  destruct (batch_size self =? 0); cbn.
  { intros [= <- <- <-]. by left. }
  destruct (_counter self mod batch_size self =? 0); cbn.
  { by apply Hcommit. }
  destruct (clock w (ticks w) - _last_save self >? save_every self); cbn.
  { by apply Hcommit. }
  intros [= <- <- <-]. by left.
Qed.

Lemma add_shape items self w r s o self' w' :
  session self = Some r -> heap w !! r = Some s ->
  add items (self, w) = (o, (self', w')) ->
  exists fl,
    calls w' = calls w ++ [CallAddAll r items] \/
    calls w' = calls w ++ [CallAddAll r items; CallCommit r fl] \/
    calls w' = calls w ++ [CallAddAll r items; CallCommit r fl; CallRollback r].
Proof.
  intros Hs Hh.
  pose proof (lookup_lt_Some _ _ _ Hh) as Hlt.
  destruct (forallb is_mapped items) eqn:Hm.
  - rewrite (add_registered _ _ _ _ _ Hs Hh Hm). unfold registered. cbn.
    set (self1 := set_counter _ self). set (w1 := record_call _ _).
    destruct (get_session_exit (self1, w1)) as [o3 [self3 w3]] eqn:X.
    apply (exit_shape self1 w1 r
             (mkSessionObj (bind s) (autoflush s) (pending s ++ items)
                           (inactive s))) in X;
      [|done|subst w1; cbn; by rewrite list_lookup_insert_eq].
    subst w1. cbn in X. rewrite <- !app_assoc in X. cbn in X.
    destruct o3 as [[]|e]; intros [= <- <- <-]; cbn;
      by exists (pending s ++ items).
  - destruct (add_each_unmapped items (pending s) Hm) as (e & pend' & Ea).
    unfold add, get_session, get_session_enter, and_then, world, update,
      get_self, ret, Session_add_all, logger. cbn.
    rewrite Hs. cbn. rewrite Hh, Ea. cbn.
    intros [= <- <- <-]. cbn. exists []. by left.
Qed.

(** X6. Whatever the items and the thresholds, an [add] calls the session in
    one of three ways: [add_all] alone, [add_all] then [commit], or
    [add_all], [commit] and [rollback]; before that it makes a session only
    if the adder had none. It never closes the session and never commits
    twice. *)
Theorem add_call_shape items self w o self' w' :
  valid_session (self, w) = true ->
  add items (self, w) = (o, (self', w')) ->
  exists r fl,
    session self' = Some r /\
    let made := match session self with
                | Some _ => []
                | None => [CallSession r (engine self)]
                end in
    since w w' = made ++ [CallAddAll r items] \/
    since w w' = made ++ [CallAddAll r items; CallCommit r fl] \/
    since w w' =
      made ++ [CallAddAll r items; CallCommit r fl; CallRollback r].
Proof.
  unfold valid_session. cbn. intros Hv Hadd.
  destruct (session self) as [r|] eqn:Hs.
  - apply bool_decide_eq_true, lookup_lt_is_Some in Hv as [s Hh].
    destruct (add_frame items self w r s o self' w' Hs Hh Hadd)
      as (_ & _ & _ & Hs' & _).
    destruct (add_shape items self w r s o self' w' Hs Hh Hadd) as (fl & H).
    exists r, fl. split; [done|]. cbn.
    destruct H as [H|[H|H]]; apply since_app in H; tauto.
  - rewrite (add_no_session items self w Hs) in Hadd.
    unfold with_new_session in Hadd. cbn in Hadd.
    set (r := length (heap w)) in *.
    set (s0 := mkSessionObj (engine self) true [] false) in *.
    assert (session (set_session (Some r) self) = Some r) as Hs0 by done.
    match type of Hadd with
    | add _ (_, ?w0) = _ =>
        assert (heap w0 !! r = Some s0) as Hh0
          by (cbn; by apply list_lookup_middle);
        destruct (add_frame items _ w0 r s0 o self' w' Hs0 Hh0 Hadd)
          as (_ & _ & _ & Hs' & _);
        destruct (add_shape items _ w0 r s0 o self' w' Hs0 Hh0 Hadd)
          as (fl & H)
    end.
    exists r, fl. split; [done|]. cbn in *.
    destruct H as [H|[H|H]]; rewrite <- app_assoc in H; apply since_app in H;
      tauto.
Qed.


(** X8. When an [add] of accepted items commits and [Session.commit] raises
    a [SQLAlchemyError], the [add] raises it; the rollback has discarded its
    items and all that was pending, nothing is stored, and yet the items are
    counted. The last save stays as it was. *)
Theorem add_commit_failure_loses_items items self w r s e o self' w' :
  session self = Some r -> heap w !! r = Some s ->
  forallb is_mapped items = true -> batch_size self <> 0 ->
  add items (self, w) = (o, (self', w')) ->
  commit_calls (since w w') = 1%nat ->
  fst (Session_commit r w) = Raises e ->
  isinstance_SQLAlchemyError e = true ->
  o = Raises e /\
  _counter self' = _counter self + Z.of_nat (length items) /\
  stored w' = stored w /\
  heap w' !! r = Some (emptied s) /\
  _last_save self' = _last_save self.
Proof.
  intros Hs Hh Hm HB Hadd Hone Hr He.
  destruct (add_spec items self w r s o self' w' Hs Hh Hm HB Hadd)
    as (Hc & _ & _ & _ & _ & _ & _ & _ & [(_ & _ & H)|(_ & _ & _ & Hc' & _)]).
  - rewrite Hr in H. destruct H as (-> & Hst & Hl & _ & Hh').
    split_and!; try done. by apply Hh'.
  - apply since_app in Hc'. rewrite Hc' in Hone. discriminate.
Qed.





Lemma del_spec self w r s o self' w' :
  session self = Some r -> heap w !! r = Some s ->
  __del__ (self, w) = (o, (self', w')) ->
  match fst (Session_commit r w) with
  | Returns _ =>
      o = Returns tt /\
      since w w' = [CallCommit r (pending s); CallClose r] /\
      stored w' = stored w ++ pending s /\
      heap w' !! r = Some (emptied s) /\ session self' = Some r
  | Raises e =>
      o = Raises e /\ stored w' = stored w /\ session self' = Some r /\
      (since w w' = [CallCommit r (pending s); CallRollback r] \/
       since w w' = [CallCommit r (pending s)])
  end.
Proof.
  intros Hs Hh.
  unfold __del__, and_then, world, logger, get_self. cbn. rewrite Hs.
  set (w0 := record_log _ w).
  assert (heap w0 !! r = Some s) as Hh0 by done.
  destruct (commit (self, w0)) as [o1 [self1 w1]] eqn:C.
  destruct (commit_spec self w0 r s o1 self1 w1 Hs Hh0 C) as (P & _ & _ & _ & Hl).
  rewrite (Session_commit_outcome r w w0) in P by done.
  destruct (fst (Session_commit r w)) as [[]|e].
  - destruct P as (-> & -> & Hc & Hst & _ & _ & _ & Hh1).
    unfold on_session, and_then, world, get_self, Session_close. cbn.
    rewrite Hs. cbn. rewrite Hh1.
    pose proof (lookup_lt_Some _ _ _ Hh1) as Hlt.
    intros [= <- <- <-]. cbn.
    split_and!; try done.
    + apply since_app. cbn. by rewrite Hc, <- app_assoc.
    + by rewrite list_lookup_insert_eq.
  - destruct P as (-> & -> & Hst & _ & P).
    intros [= <- <- <-]. split_and!; try done.
    destruct (isinstance_SQLAlchemyError e).
    + left. apply since_app. by destruct P as (-> & _).
    + right. apply since_app. by destruct P as (-> & _).
Qed.

(** X10. [__del__] on an adder with a session commits and then closes it:
    when [Session.commit] returns, what was pending is stored, the session is
    empty and the adder still refers to it. *)
Theorem del_flushes_and_closes self w r s o self' w' :
  session self = Some r -> heap w !! r = Some s ->
  fst (Session_commit r w) = Returns tt ->
  __del__ (self, w) = (o, (self', w')) ->
  o = Returns tt /\
  since w w' = [CallCommit r (pending s); CallClose r] /\
  stored w' = held (self, w) /\
  heap w' !! r = Some (emptied s) /\ session self' = Some r.
Proof.
  intros Hs Hh Hr D.
  pose proof (del_spec self w r s o self' w' Hs Hh D) as H.
  rewrite Hr in H. destruct H as (-> & Hc & Hst & Hh' & Hs').
  unfold held. cbn. rewrite Hs, Hh. done.
Qed.

(** X11. When [Session.commit] raises in [__del__], the exception leaves
    [__del__] and the session is not closed: after the commit there is at
    most the rollback. Nothing is stored. *)
Theorem del_failure_leaves_open self w r s e o self' w' :
  session self = Some r -> heap w !! r = Some s ->
  fst (Session_commit r w) = Raises e ->
  __del__ (self, w) = (o, (self', w')) ->
  o = Raises e /\ stored w' = stored w /\
  ~ In (CallClose r) (since w w') /\
  (isinstance_SQLAlchemyError e = true ->
   since w w' = [CallCommit r (pending s); CallRollback r]).
Proof.
  intros Hs Hh Hr D.
  destruct (commit (self, record_log
              (mkLogRecord DEBUG "cleaning up session" NoArg) w))
    as [o1 [self1 w1]] eqn:C.
  pose proof (del_spec self w r s o self' w' Hs Hh D) as H.
  rewrite Hr in H. destruct H as (-> & Hst & _ & Hc).
  split_and!; try done.
  - destruct Hc as [-> | ->]; cbn; intros H; repeat destruct H as [H|H];
      done.
  - intros He.
    assert (heap (record_log (mkLogRecord DEBUG "cleaning up session" NoArg) w)
              !! r = Some s) as Hh0 by done.
    destruct (commit_spec self _ r s o1 self1 w1 Hs Hh0 C) as (P & _).
    rewrite (Session_commit_outcome r w) in P by done.
    rewrite Hr, He in P. destruct P as (-> & -> & _ & _ & Hc1 & _).
    revert D. unfold __del__, and_then, world, logger, get_self. cbn.
    rewrite Hs, C. intros [= <- <-]. by apply since_app.
Qed.

(** X12. [__del__] on an adder without a session writes its log record and
    does nothing else; unlike [commit] it does not raise. *)
Theorem del_without_session self w :
  session self = None ->
  __del__ (self, w) =
    (Returns tt,
     (self, record_log (mkLogRecord DEBUG "cleaning up session" NoArg) w)) /\
  fst (commit (self, w)) = Raises AttributeError.
Proof.
  intros Hs. split.
  - unfold __del__, and_then, world, logger, get_self, ret. cbn.
    by rewrite Hs.
  - unfold_py. cbn. by rewrite Hs.
Qed.


(** ** Runs for the further properties *)

(** X2 on an adder whose session was set to [None]. *)
Lemma commit_without_session_witness :
  fst (commit (set_session None (fst (built 3 1 still)), snd (built 3 1 still)))
  = Raises AttributeError.
Proof.
  rewrite (commit_without_session
             (set_session None (fst (built 3 1 still)))
             (snd (built 3 1 still))); run.
Defined.


(** X4 with an object of no mapped class after a mapped one. *)
Lemma add_refused_item_witness :
  let st := built 3 1 still in
  exists e w', add [Mapped 1; Unmapped 2] st = (Raises e, (fst st, w')) /\
               ticks w' = 1%nat.
Proof.
  intros st.
  destruct (add_refused_item [Mapped 1; Unmapped 2] (fst st) (snd st) 0%nat
              (mkSessionObj 1%nat true [] false))
    as (e & w' & H1 & _ & _ & H2 & _); [run|run|run|].
  exists e, w'. split; [exact H1|exact H2].
Defined.

(** X5 on [ItemAdder(batch_size=0)]. *)
Lemma add_zero_batch_size_witness :
  let st := built 0 1 still in
  fst (add [Mapped 1] st) = Raises ZeroDivisionError /\
  _counter (fst (snd (add [Mapped 1] st))) = 1.
Proof.
  intros st.
  destruct (add_zero_batch_size [Mapped 1] (fst st) (snd st) 0%nat
              (mkSessionObj 1%nat true [] false))
    as (w' & H & _); [run|run|run|run|].
  change (add [Mapped 1] st) with (add [Mapped 1] (fst st, snd st)).
  rewrite H. split; run.
Defined.

(** X6 on an adder just built. *)
Lemma add_call_shape_witness :
  let st := built 3 1 still in
  exists r, session (fst (snd (add [Mapped 1] st))) = Some r.
Proof.
  intros st.
  destruct (add_call_shape [Mapped 1] (fst st) (snd st)
              (fst (add [Mapped 1] st)) (fst (snd (add [Mapped 1] st)))
              (snd (snd (add [Mapped 1] st))))
    as (r & fl & H & _); [run|run|].
  exists r. exact H.
Defined.


(** X8 with [batch_size] 1 and a database that refuses the first commit. *)
Lemma add_commit_failure_loses_items_witness :
  let st := built 1 5 refusing_once in
  fst (add [Mapped 1] st) = Raises (SQLAlchemyError 7) /\
  _counter (fst (snd (add [Mapped 1] st))) = 1 /\
  stored (snd (snd (add [Mapped 1] st))) = [].
Proof.
  intros st.
  destruct (add_commit_failure_loses_items [Mapped 1] (fst st) (snd st) 0%nat
              (mkSessionObj 1%nat true [] false) (SQLAlchemyError 7)
              (fst (add [Mapped 1] st)) (fst (snd (add [Mapped 1] st)))
              (snd (snd (add [Mapped 1] st))))
    as (H1 & H2 & H3 & _); [run|run|run|run|run|run|run|run|].
  split_and!; [exact H1|exact H2|exact H3].
Defined.


(** X10 after one add that did not commit. *)
Lemma del_flushes_and_closes_witness :
  let st := snd (add [Mapped 1] (built 3 1 still)) in
  stored (snd (snd (__del__ st))) = [Mapped 1].
Proof.
  intros st.
  destruct (del_flushes_and_closes (fst st) (snd st) 0%nat
              (mkSessionObj 1%nat true [Mapped 1] false)
              (fst (__del__ st)) (fst (snd (__del__ st)))
              (snd (snd (__del__ st))))
    as (_ & _ & H & _); [run|run|run|run|].
  exact H.
Defined.

(** X11 with a database that refuses the commit of [__del__]. *)
Lemma del_failure_leaves_open_witness :
  let st := built 3 5 refusing_once in
  fst (__del__ st) = Raises (SQLAlchemyError 7) /\
  since (snd st) (snd (snd (__del__ st))) = [CallCommit 0 []; CallRollback 0].
Proof.
  intros st.
  destruct (del_failure_leaves_open (fst st) (snd st) 0%nat
              (mkSessionObj 1%nat true [] false) (SQLAlchemyError 7)
              (fst (__del__ st)) (fst (snd (__del__ st)))
              (snd (snd (__del__ st))))
    as (H1 & _ & _ & H2); [run|run|run|run|].
  split; [exact H1|]. apply H2. run.
Defined.

(** X12 on an adder whose session was set to [None]. *)
Lemma del_without_session_witness :
  fst (__del__ (set_session None (fst (built 3 1 still)),
                snd (built 3 1 still))) = Returns tt.
Proof.
  rewrite (proj1 (del_without_session
                    (set_session None (fst (built 3 1 still)))
                    (snd (built 3 1 still)) ltac:(run))).
  reflexivity.
Defined.


End Adder.

(** ** The session factory *)

(** C6. When the block of [make_session] returns, the factory calls
    [Session.commit] once and then closes the session if [auto_commit] is
    set, and what the block left pending is stored when that commit returns;
    otherwise it only closes the session and nothing more is stored. *)
Theorem make_session_normal_exit {A} (auto_commit : bool)
  (body : nat -> Py World A) w a w1 s o w' :
  let r := length (heap w) in
  body r (snd (Session engine false w)) = (Returns a, w1) ->
  heap w1 !! r = Some s ->
  make_session auto_commit body w = (o, w') ->
  if auto_commit then
    since w1 w' = [CallCommit r (pending s); CallClose r] /\
    match fst (Session_commit r w1) with
    | Returns _ => o = Returns a /\ stored w' = stored w1 ++ pending s
    | Raises e => o = Raises e /\ stored w' = stored w1
    end
  else
    o = Returns a /\ since w1 w' = [CallClose r] /\ stored w' = stored w1 /\
    commit_no w' = commit_no w1.
Proof.
  intros r Hb Hh. pose proof (lookup_lt_Some _ _ _ Hh) as Hlt.
  unfold make_session, try_finally, and_then, ret.
  unfold Session in *. cbn [fst snd] in *. subst r. rewrite Hb.
  destruct auto_commit; cbn.
  - unfold Session_commit, Session_close. rewrite Hh.
    destruct (inactive s); cbn.
    + rewrite Hh. intros [= <- <-]. cbn.
      split; [|done]. apply since_app. cbn. by rewrite <- app_assoc.
    + destruct (db_outcome w1 (commit_no w1)) as [e|]; cbn;
        rewrite list_lookup_insert_eq by done; intros [= <- <-]; cbn;
        (split; [|done]); apply since_app; cbn; by rewrite <- app_assoc.
  - unfold Session_close. rewrite Hh. intros [= <- <-]. cbn.
    split_and!; try done. by apply since_app.
Qed.

(** C7. When the block of [make_session] raises, the factory closes the
    session, calls nothing else on it, stores nothing, and raises the same
    exception, whatever [auto_commit] is. *)
Theorem make_session_body_raises {A} (auto_commit : bool)
  (body : nat -> Py World A) w e w1 s :
  let r := length (heap w) in
  body r (snd (Session engine false w)) = (Raises e, w1) ->
  heap w1 !! r = Some s ->
  exists w',
    make_session auto_commit body w = (Raises e, w') /\
    since w1 w' = [CallClose r] /\ stored w' = stored w1 /\
    commit_no w' = commit_no w1 /\ heap w' !! r = Some (emptied s).
Proof.
  intros r Hb Hh. pose proof (lookup_lt_Some _ _ _ Hh) as Hlt.
  unfold make_session, try_finally, and_then, ret.
  unfold Session in *. cbn [fst snd] in *. subst r. rewrite Hb.
  unfold Session_close. rewrite Hh.
  eexists. split; [reflexivity|]. cbn.
  split_and!; try done; [by apply since_app|].
  by rewrite list_lookup_insert_eq.
Qed.


(** A block that adds one item, with [auto_commit]. *)
Lemma make_session_normal_exit_witness :
  let body := fun r => Session_add_all r [Mapped 1] in
  fst (make_session true body still) = Returns tt /\
  stored (snd (make_session true body still)) = [Mapped 1].
Proof.
  intros body.
  assert (body (length (heap still)) (snd (Session engine false still)) =
            (Returns tt, snd (body 0%nat (snd (Session engine false still)))))
    as Hb by (vm_compute; reflexivity).
  assert (heap (snd (body 0%nat (snd (Session engine false still)))) !! 0%nat =
            Some (mkSessionObj engine false [Mapped 1] false))
    as Hh by (vm_compute; reflexivity).
  assert (make_session true body still =
            (fst (make_session true body still),
             snd (make_session true body still)))
    as Hm by (vm_compute; reflexivity).
  pose proof (make_session_normal_exit true body still tt _ _ _ _ Hb Hh Hm)
    as (_ & H).
  exact H.
Defined.

(** A block that adds one item and raises, with [auto_commit]. *)
Lemma make_session_body_raises_witness :
  let body := fun r =>
    let* _ := Session_add_all r [Mapped 1] in
    (raise (OtherError 1) : Py World unit) in
  exists w',
    make_session true body still = (Raises (OtherError 1), w') /\
    stored w' = [].
Proof.
  intros body.
  assert (body (length (heap still)) (snd (Session engine false still)) =
            (Raises (OtherError 1),
             snd (body 0%nat (snd (Session engine false still)))))
    as Hb by (vm_compute; reflexivity).
  assert (heap (snd (body 0%nat (snd (Session engine false still)))) !! 0%nat =
            Some (mkSessionObj engine false [Mapped 1] false))
    as Hh by (vm_compute; reflexivity).
  destruct (make_session_body_raises true body still (OtherError 1) _ _ Hb Hh)
    as (w' & H1 & _ & H2 & _).
  exists w'. split; [exact H1|exact H2].
Defined.

(** X14. The factory stores nothing of its own accord: after
    [make_session], whatever the block did, more is stored than when the
    block ended only if [auto_commit] was set and the block returned, and
    then it is what the block left pending. In every case the session is left
    empty: what was pending and not committed is dropped at the close. *)
Theorem make_session_leaves_nothing_pending {A} (auto_commit : bool)
  (body : nat -> Py World A) w o1 w1 s o w' :
  let r := length (heap w) in
  body r (snd (Session engine false w)) = (o1, w1) ->
  heap w1 !! r = Some s ->
  make_session auto_commit body w = (o, w') ->
  heap w' !! r = Some (emptied s) /\
  (stored w' = stored w1 \/
   auto_commit = true /\ (exists a, o1 = Returns a) /\ o = o1 /\
   stored w' = stored w1 ++ pending s).
Proof.
  intros r Hb Hh. pose proof (lookup_lt_Some _ _ _ Hh) as Hlt.
  unfold make_session, try_finally, and_then, ret.
  unfold Session in *. cbn [fst snd] in *. subst r. rewrite Hb.
  destruct o1 as [a|e]; cbn.
  - destruct auto_commit; cbn.
    + unfold Session_commit, Session_close. rewrite Hh.
      destruct (inactive s); cbn.
      * rewrite Hh. intros [= <- <-]. cbn.
        rewrite list_lookup_insert_eq by done. by split; [|left].
      * destruct (db_outcome w1 (commit_no w1)) as [e|]; cbn;
          rewrite list_lookup_insert_eq by done; intros [= <- <-]; cbn;
          rewrite list_insert_insert_eq, list_lookup_insert_eq by done.
        -- by split; [|left].
        -- split; [done|]. right. split_and!; try done. by exists a.
    + unfold Session_close. rewrite Hh. intros [= <- <-]. cbn.
      rewrite list_lookup_insert_eq by done. by split; [|left].
  - unfold Session_close. rewrite Hh. intros [= <- <-]. cbn.
    rewrite list_lookup_insert_eq by done. by split; [|left].
Qed.

(** X14 with a block that adds one item, without [auto_commit]. *)
Lemma make_session_leaves_nothing_pending_witness :
  let body := fun r => Session_add_all r [Mapped 1] in
  heap (snd (make_session false body still)) !! 0%nat =
    Some (mkSessionObj engine false [] false).
Proof.
  intros body.
  assert (body (length (heap still)) (snd (Session engine false still)) =
            (Returns tt, snd (body 0%nat (snd (Session engine false still)))))
    as Hb by (vm_compute; reflexivity).
  assert (heap (snd (body 0%nat (snd (Session engine false still)))) !! 0%nat =
            Some (mkSessionObj engine false [Mapped 1] false))
    as Hh by (vm_compute; reflexivity).
  assert (make_session false body still =
            (fst (make_session false body still),
             snd (make_session false body still)))
    as Hm by (vm_compute; reflexivity).
  exact (proj1 (make_session_leaves_nothing_pending false body still _ _ _ _ _
                  Hb Hh Hm)).
Defined.
